(** * The Sphinx configuration module [docs/source/conf.py] of bettercpp

    The repository is one Python module that Sphinx executes to obtain
    its settings.  The module is a sequence of top-level assignments of
    literal displays to names.  It is embedded here as that sequence of
    assignments, together with the evaluation of the displays and the
    execution of the assignments on the module namespace (a finite map
    from names to values). *)

From stdpp Require Import base option list list_monad strings gmap.

Open Scope string_scope.

(** ** Values and expressions *)

Module Py.

(** The objects the module builds: [None], [str], [list], [tuple] and
    [dict] with string keys.  A dict keeps its items in insertion order. *)
#[local] Unset Elimination Schemes.

Inductive value : Type :=
| VNone
| VStr (s : string)
| VList (vs : list value)
| VTuple (vs : list value)
| VDict (items : list (string * value)).

(** The expressions on the right of an assignment: the constant [None],
    string literals, names, and list, tuple and dict displays (the keys of
    a dict display are string literals throughout the file). *)
Inductive expr : Type :=
| ENone
| EStr (s : string)
| EName (x : string)
| EList (es : list expr)
| ETuple (es : list expr)
| EDict (items : list (string * expr)).

#[local] Set Elimination Schemes.

(** A statement of the module body: [x = e]. *)
Inductive stmt : Type :=
| Assign (x : string) (e : expr).

(** The namespace the module body runs in (its globals). *)
Abbreviation namespace := (gmap string value).

(** [d[k] = v] on an insertion-ordered dict: an existing key keeps its
    position and gets the new value, a new key goes to the end. *)
Fixpoint dict_set (k : string) (v : value) (d : list (string * value))
  : list (string * value) :=
  match d with
  | [] => [(k, v)]
  | (k', v') :: d' =>
      if String.eqb k k' then (k, v) :: d' else (k', v') :: dict_set k v d'
  end.

(** [d.get(k)]. *)
Fixpoint dict_get (k : string) (d : list (string * value)) : option value :=
  match d with
  | [] => None
  | (k', v) :: d' => if String.eqb k k' then Some v else dict_get k d'
  end.

Section displays.
Variable ev : expr → option value.

(** The items of a dict display are evaluated and stored left to right. *)
Definition eval_items : list (string * expr) → list (string * value) →
                        option (list (string * value)) :=
  fix go items d :=
    match items with
    | [] => Some d
    | (k, e) :: items' => v ← ev e; go items' (dict_set k v d)
    end.
End displays.

(** Evaluation of an expression in a namespace; a name that is not bound
    raises [NameError], which is [None] here. *)
Fixpoint eval (g : namespace) (e : expr) : option value :=
  match e with
  | ENone => Some VNone
  | EStr s => Some (VStr s)
  | EName x => g !! x
  | EList es => VList <$> mapM (eval g) es
  | ETuple es => VTuple <$> mapM (eval g) es
  | EDict items => VDict <$> eval_items (eval g) items []
  end.

Definition exec_stmt (g : namespace) (s : stmt) : option namespace :=
  match s with
  | Assign x e => v ← eval g e; Some (<[x := v]> g)
  end.

(** Running a module body: its statements in order, stopping at the first
    exception. *)
Fixpoint exec_module (body : list stmt) (g : namespace) : option namespace :=
  match body with
  | [] => Some g
  | s :: body' => g' ← exec_stmt g s; exec_module body' g'
  end.

(** The names a body assigns, in order of the assignments. *)
Definition target (s : stmt) : string := match s with Assign x _ => x end.
Definition rhs (s : stmt) : expr := match s with Assign _ e => e end.
Definition assigned (body : list stmt) : list string := target <$> body.

(** The right-hand side of the last assignment to [x] in a body. *)
Fixpoint last_assign (x : string) (body : list stmt) : option expr :=
  match body with
  | [] => None
  | Assign y e :: body' =>
      match last_assign x body' with
      | Some e' => Some e'
      | None => if String.eqb x y then Some e else None
      end
  end.

(** An expression is static when it reads no name: it is built from
    constants and displays of static expressions only. *)
Fixpoint static (e : expr) : bool :=
  match e with
  | ENone | EStr _ => true
  | EName _ => false
  | EList es | ETuple es => forallb static es
  | EDict items => forallb (λ kv, static kv.2) items
  end.

Definition static_stmt (s : stmt) : bool := static (rhs s).

End Py.

Import Py.

(** ** The module *)

(** The raw triple-quoted string bound to ['preamble']: a raw literal keeps
    its backslashes and line breaks as they are written. *)
Definition preamble : string :=
"
                    \usepackage{charter}
                    \usepackage[defaultsans]{lato}
                    \usepackage{inconsolata}
                    \addto\captionsenglish{\renewcommand{\contentsname}{Contents}}
                ".

Definition extensions : expr :=
  EList [ EStr "sphinx.ext.duration";
          EStr "sphinx.ext.doctest";
          EStr "sphinx.ext.autodoc";
          EStr "sphinx.ext.autosummary";
          EStr "sphinx.ext.intersphinx" ].

Definition intersphinx_mapping : expr :=
  EDict [ ("python", ETuple [EStr "https://docs.python.org/3/"; ENone]);
          ("sphinx", ETuple [EStr "https://www.sphinx-doc.org/en/master/"; ENone]) ].

(** Every option of the theme is commented out in the source. *)
Definition html_theme_options : expr := EDict [].

(** The ['figure_align'] item is commented out in the source. *)
Definition latex_elements : expr :=
  EDict [ ("papersize", EStr "letterpaper");
          ("sphinxsetup", EStr "hmargin={1.2in,1.2in}, vmargin={1.2in,1.2in}");
          ("pointsize", EStr "12pt");
          ("preamble", EStr preamble) ].

Definition latex_docclass : expr := EDict [ ("book", EStr "book") ].

(** The body of [conf.py], one entry per assignment, in source order. *)
Definition conf_py : list stmt :=
  [ Assign "project" (EStr "Better C++");
    Assign "copyright" (EStr "2024, Nhut Nguyen");
    Assign "author" (EStr "Nhut Nguyen");
    Assign "release" (EStr "0.1");
    Assign "version" (EStr "0.1.0");
    Assign "extensions" extensions;
    Assign "intersphinx_mapping" intersphinx_mapping;
    Assign "intersphinx_disabled_domains" (EList [EStr "std"]);
    Assign "templates_path" (EList [EStr "_templates"]);
    Assign "master_doc" (EStr "index");
    Assign "html_theme" (EStr "furo");
    Assign "html_title" (EStr "Better C++");
    Assign "html_theme_options" html_theme_options;
    Assign "latex_elements" latex_elements;
    Assign "latex_show_urls" (EStr "footnote");
    Assign "latex_docclass" latex_docclass ].

(** ** Shapes of configuration values *)

Definition is_str (v : value) : bool :=
  match v with VStr _ => true | _ => false end.

Definition is_str_list (v : value) : bool :=
  match v with VList vs => forallb is_str vs | _ => false end.

(** A string or a list of strings. *)
Definition is_option_value (v : value) : bool := is_str v || is_str_list v.

(** The shapes as the specification lists them: a string, a list of
    strings, or a mapping from names to strings or lists of strings. *)
Definition spec_shape (v : value) : bool :=
  match v with
  | VDict items => forallb (λ kv, is_option_value kv.2) items
  | _ => is_option_value v
  end.

(** A pair of a string and [None], as in the intersphinx mapping. *)
Definition is_inventory_pair (v : value) : bool :=
  match v with VTuple [VStr _; VNone] => true | _ => false end.

(** The shapes with the pair added among the values of a mapping. *)
Definition conf_shape (v : value) : bool :=
  match v with
  | VDict items =>
      forallb (λ kv, is_option_value kv.2 || is_inventory_pair kv.2) items
  | _ => is_option_value v
  end.

(** What the documentation builder reads for the name [x] after it has
    executed the module in the namespace [g] it prepared. *)
Definition setting (g : namespace) (x : string) : option value :=
  m ← exec_module conf_py g; m !! x.

(** ** Induction over expressions *)

Section expr_induction.
Variable P : expr → Prop.
Hypothesis HNone : P ENone.
Hypothesis HStr : ∀ s, P (EStr s).
Hypothesis HName : ∀ x, P (EName x).
Hypothesis HList : ∀ es, Forall P es → P (EList es).
Hypothesis HTuple : ∀ es, Forall P es → P (ETuple es).
Hypothesis HDict : ∀ items, Forall (λ kv, P kv.2) items → P (EDict items).

Fixpoint expr_ind (e : expr) : P e :=
  let elems :=
    fix go (es : list expr) : Forall P es :=
      match es with
      | [] => List.Forall_nil P
      | e' :: es' => List.Forall_cons P e' es' (expr_ind e') (go es')
      end in
  match e with
  | ENone => HNone
  | EStr s => HStr s
  | EName x => HName x
  | EList es => HList es (elems es)
  | ETuple es => HTuple es (elems es)
  | EDict items =>
      HDict items
        ((fix go (its : list (string * expr)) : Forall (λ kv, P kv.2) its :=
            match its with
            | [] => List.Forall_nil _
            | (k, e') :: its' =>
                List.Forall_cons (λ kv, P kv.2) (k, e') its' (expr_ind e') (go its')
            end) items)
  end.
End expr_induction.

(** An expression is constant when it has one value in every namespace. *)
Definition constant (e : expr) : Prop := ∃ v, ∀ g : namespace, eval g e = Some v.

(** ** Sanity checks on the embedding *)

Example preamble_length : String.length preamble = 237.
Proof. reflexivity. Qed.

Example preamble_first_line :
  String.substring 0 41 preamble =
  String (Ascii.ascii_of_nat 10) "                    \usepackage{charter}".
Proof. reflexivity. Qed.


Example dict_set_keeps_position :
  dict_set "a" (VStr "3") [("a", VStr "1"); ("b", VStr "2")] =
  [("a", VStr "3"); ("b", VStr "2")].
Proof. reflexivity. Qed.

(** ** Dict stores *)

Lemma dict_get_set_eq k v d : dict_get k (dict_set k v d) = Some v.
Proof.
  induction d as [|[k' v'] d IH]; simpl.
  - by rewrite String.eqb_refl.
  - destruct (String.eqb_spec k k') as [->|Hne]; simpl.
    + by rewrite String.eqb_refl.
    + by destruct (String.eqb_spec k k').
Qed.

Lemma dict_get_set_ne k k' v d :
  k ≠ k' → dict_get k' (dict_set k v d) = dict_get k' d.
Proof.
  intros Hne. induction d as [|[k'' v''] d IH]; simpl.
  - by destruct (String.eqb_spec k' k) as [->|].
  - destruct (String.eqb_spec k k'') as [<-|Hne']; simpl.
    + by destruct (String.eqb_spec k' k) as [->|].
    + by rewrite IH.
Qed.

(** ** Static expressions evaluate to a constant *)

Lemma constant_elems es :
  Forall (λ e, static e = true → constant e) es →
  forallb static es = true →
  ∃ vs, ∀ g : namespace, mapM (eval g) es = Some vs.
Proof.
  induction 1 as [|e es He _ IH]; simpl; intros Hs.
  - by exists [].
  - apply andb_prop in Hs as [Hs1 Hs2].
    destruct (He Hs1) as [v Hv], (IH Hs2) as [vs Hvs].
    exists (v :: vs). intros g.
    change (mapM (eval g) (e :: es))
      with (y ← eval g e; k ← mapM (eval g) es; mret (y :: k)).
    by rewrite Hv, Hvs.
Qed.

Lemma constant_items items :
  Forall (λ kv : string * expr, static kv.2 = true → constant kv.2) items →
  forallb (λ kv, static kv.2) items = true →
  ∀ d, ∃ d', ∀ g : namespace, eval_items (eval g) items d = Some d'.
Proof.
  induction 1 as [|[k e] items He _ IH]; simpl; intros Hs d.
  - by exists d.
  - apply andb_prop in Hs as [Hs1 Hs2].
    destruct (He Hs1) as [v Hv], (IH Hs2 (dict_set k v d)) as [d' Hd'].
    exists d'. intros g. rewrite Hv. simpl. apply Hd'.
Qed.

Lemma static_constant e : static e = true → constant e.
Proof.
  induction e as [|s|x|es IH|es IH|items IH] using expr_ind; simpl; intros Hs.
  - by exists VNone.
  - by exists (VStr s).
  - done.
  - destruct (constant_elems es IH Hs) as [vs Hvs].
    exists (VList vs). intros g. cbn [eval]. by rewrite Hvs.
  - destruct (constant_elems es IH Hs) as [vs Hvs].
    exists (VTuple vs). intros g. cbn [eval]. by rewrite Hvs.
  - destruct (constant_items items IH Hs []) as [d Hd].
    exists (VDict d). intros g. cbn [eval]. by rewrite Hd.
Qed.

Lemma static_eval_empty (g : namespace) e :
  static e = true → eval g e = eval ∅ e ∧ is_Some (eval g e).
Proof.
  intros [v Hv]%static_constant. rewrite !Hv. eauto.
Qed.

(** ** Bodies of static assignments *)

(** After a body of static assignments, a name holds the constant of the
    last assignment to it, and a name the body does not assign holds what
    it held before. *)
Lemma exec_module_static body :
  forallb static_stmt body = true →
  ∀ g, ∃ m, exec_module body g = Some m ∧
    ∀ x, m !! x = match last_assign x body with
                  | Some e => eval ∅ e
                  | None => g !! x
                  end.
Proof.
  induction body as [|[y e] body IH]; simpl; intros Hs g.
  - by exists g.
  - apply andb_prop in Hs as [Hs1 Hs2].
    destruct (static_constant e Hs1) as [v Hv]. rewrite Hv. simpl.
    destruct (IH Hs2 (<[y := v]> g)) as (m & Hm & Hx).
    exists m. split; [done|]. intros x. rewrite Hx.
    destruct (last_assign x body) as [e'|]; [done|].
    destruct (String.eqb_spec x y) as [->|Hne].
    + by rewrite lookup_insert_eq, Hv.
    + by rewrite lookup_insert_ne.
Qed.

Lemma last_assign_None x body : last_assign x body = None ↔ x ∉ assigned body.
Proof.
  induction body as [|[y e] body IH]; simpl.
  - split; [intros _; apply not_elem_of_nil | done].
  - rewrite not_elem_of_cons, <- IH.
    destruct (last_assign x body); [intuition congruence|].
    destruct (String.eqb_spec x y); intuition congruence.
Qed.

Lemma conf_py_static : forallb static_stmt conf_py = true.
Proof. reflexivity. Qed.

Lemma setting_last_assign g x :
  setting g x = match last_assign x conf_py with
                | Some e => eval ∅ e
                | None => g !! x
                end.
Proof.
  unfold setting.
  destruct (exec_module_static conf_py conf_py_static g) as (m & -> & Hm).
  apply Hm.
Qed.

(** Reading one setting: the last assignment to it, evaluated. *)
Ltac read_setting := rewrite !setting_last_assign; reflexivity.

Lemma last_assign_Some x body e :
  last_assign x body = Some e → Assign x e ∈ body.
Proof.
  induction body as [|[y e'] body IH]; simpl; [done|].
  destruct (last_assign x body) as [e''|].
  - intros [= ->]. right. by apply IH.
  - destruct (String.eqb_spec x y) as [->|]; [|done].
    intros [= ->]. left.
Qed.

(** A name the module assigns is bound to one constant, whatever the
    namespace the module is evaluated in. *)
Lemma assigned_constant x :
  x ∈ assigned conf_py → ∃ v, ∀ g, setting g x = Some v.
Proof.
  intros Hx. destruct (last_assign x conf_py) as [e|] eqn:He.
  - pose proof (last_assign_Some _ _ _ He) as Hin.
    pose proof conf_py_static as Hs.
    rewrite forallb_forall in Hs.
    apply list_elem_of_In, Hs, static_constant in Hin as [v Hv].
    exists v. intros g. by rewrite setting_last_assign, He.
  - by apply last_assign_None in He.
Qed.

(** ** The settings *)

(** C1: in whatever namespace the module is evaluated, it binds the project
    metadata of the book: [project] is 'Better C++', [author] is
    'Nhut Nguyen', [version] is '0.1.0' and [release] is '0.1'. *)
Theorem project_metadata (g : namespace) :
  setting g "project" = Some (VStr "Better C++") ∧
  setting g "author" = Some (VStr "Nhut Nguyen") ∧
  setting g "version" = Some (VStr "0.1.0") ∧
  setting g "release" = Some (VStr "0.1").
Proof. repeat split; read_setting. Qed.

(** C2: [extensions] is the list of exactly these five extension names, in
    this order. *)
Theorem extensions_exact (g : namespace) :
  setting g "extensions" =
  Some (VList [ VStr "sphinx.ext.duration";
                VStr "sphinx.ext.doctest";
                VStr "sphinx.ext.autodoc";
                VStr "sphinx.ext.autosummary";
                VStr "sphinx.ext.intersphinx" ]).
Proof. read_setting. Qed.

(** C3 as stated fails: evaluated in the empty namespace, the mapping bound
    to [html_theme_options] has no option name bound to a value. *)
Lemma html_theme_options_binds_nothing :
  ¬ ∃ d k v, setting ∅ "html_theme_options" = Some (VDict d) ∧
             dict_get k d = Some v.
Proof.
  intros (d & k & v & Hd & Hk).
  rewrite setting_last_assign in Hd. by injection Hd as <-.
Qed.

(** C3, amended: [html_theme_options] is bound to the empty mapping; no
    theme option is set. *)
Theorem html_theme_options_empty (g : namespace) :
  setting g "html_theme_options" = Some (VDict []).
Proof. read_setting. Qed.

(** C4: the HTML theme is selected by the name 'furo', and the HTML title
    is 'Better C++', the same string as the project name. *)
Theorem html_theme_and_title (g : namespace) :
  setting g "html_theme" = Some (VStr "furo") ∧
  setting g "html_title" = Some (VStr "Better C++") ∧
  setting g "html_title" = setting g "project".
Proof. repeat split; read_setting. Qed.

(** C5: [intersphinx_mapping] has exactly the two entries 'python' and
    'sphinx', each a pair of the project's URL and the inventory [None],
    and [intersphinx_disabled_domains] is the one-element list ['std']. *)
Theorem intersphinx_settings (g : namespace) :
  setting g "intersphinx_mapping" =
  Some (VDict [ ("python", VTuple [VStr "https://docs.python.org/3/"; VNone]);
                ("sphinx", VTuple [VStr "https://www.sphinx-doc.org/en/master/";
                                   VNone]) ]) ∧
  setting g "intersphinx_disabled_domains" = Some (VList [VStr "std"]).
Proof. split; read_setting. Qed.

(** C6: [latex_elements] is a mapping with 'papersize' 'letterpaper',
    'pointsize' '12pt', 'sphinxsetup' giving 1.2in margins, a non-empty
    'preamble' string, and no 'figure_align' key. *)
Theorem latex_elements_settings (g : namespace) :
  ∃ d, setting g "latex_elements" = Some (VDict d) ∧
       dict_get "papersize" d = Some (VStr "letterpaper") ∧
       dict_get "pointsize" d = Some (VStr "12pt") ∧
       dict_get "sphinxsetup" d =
         Some (VStr "hmargin={1.2in,1.2in}, vmargin={1.2in,1.2in}") ∧
       (∃ s, dict_get "preamble" d = Some (VStr s) ∧ s ≠ "") ∧
       dict_get "figure_align" d = None.
Proof.
  eexists. split; [read_setting|].
  repeat split. by exists preamble.
Qed.

(** C7: [latex_docclass] is a mapping whose only entry maps 'book' to
    'book'. *)
Theorem latex_docclass_book (g : namespace) :
  setting g "latex_docclass" = Some (VDict [("book", VStr "book")]).
Proof. read_setting. Qed.

(** C8 as stated fails: [intersphinx_mapping] is assigned by the file, and
    its value is none of a string, a list of strings, or a mapping to
    strings or lists of strings. *)
Lemma intersphinx_mapping_not_spec_shape :
  "intersphinx_mapping" ∈ assigned conf_py ∧
  ∃ v, setting ∅ "intersphinx_mapping" = Some v ∧ spec_shape v = false.
Proof.
  split; [apply (bool_decide_unpack _); by vm_compute|].
  eexists. split; [read_setting | reflexivity].
Qed.

(** C8, amended: every name the file assigns is bound to a string, a list
    of strings, or a mapping from strings to values that are strings,
    lists of strings, or pairs of a string and [None]. *)
Theorem value_shapes (g : namespace) (x : string) :
  x ∈ assigned conf_py →
  ∃ v, setting g x = Some v ∧ conf_shape v = true.
Proof.
  unfold assigned; simpl; intros Hx.
  repeat (apply elem_of_cons in Hx as [->|Hx]);
    [eexists; split; [read_setting | reflexivity] ..|].
  by apply elem_of_nil in Hx.
Qed.

(** The amended C8 at [intersphinx_mapping], evaluated in the empty
    namespace. *)
Lemma value_shapes_witness :
  ∃ v, setting ∅ "intersphinx_mapping" = Some v ∧ conf_shape v = true.
Proof.
  apply (value_shapes ∅ "intersphinx_mapping").
  apply (bool_decide_unpack _). by vm_compute.
Defined.

(** C9: every name is assigned exactly once, every right-hand side is a
    static constant, and any two evaluations of the module, in whatever
    namespaces, yield the same binding for every name the file assigns. *)
Theorem single_static_assignment :
  NoDup (assigned conf_py) ∧
  Forall (λ s, static (rhs s) = true) conf_py ∧
  ∀ g1 g2 : namespace,
    Forall (λ x, is_Some (setting g1 x) ∧ setting g1 x = setting g2 x)
           (assigned conf_py).
Proof.
  split; [apply (bool_decide_unpack _); by vm_compute|].
  split; [repeat constructor|].
  intros g1 g2. apply Forall_forall. intros x Hx.
  destruct (assigned_constant x Hx) as [v Hv]. rewrite !Hv. eauto.
Qed.

(** C10: the master document is 'index', and LaTeX output shows URLs as
    footnotes. *)
Theorem master_doc_and_latex_show_urls (g : namespace) :
  setting g "master_doc" = Some (VStr "index") ∧
  setting g "latex_show_urls" = Some (VStr "footnote").
Proof. split; read_setting. Qed.

(** ** Module bodies in general *)

Lemma assigned_elem x e body : Assign x e ∈ body → x ∈ assigned body.
Proof. intros H. by apply (list_elem_of_fmap_2' target _ _ _ H). Qed.

(** When no name is assigned twice, the last assignment to a name is the
    only one. *)
Lemma last_assign_elem x e body :
  NoDup (assigned body) → Assign x e ∈ body → last_assign x body = Some e.
Proof.
  induction body as [|[y e'] body IH]; simpl.
  - intros _ H. by apply elem_of_nil in H.
  - rewrite NoDup_cons. intros [Hy Hnd] [[= -> ->]|Hin]%elem_of_cons.
    + apply last_assign_None in Hy. by rewrite Hy, String.eqb_refl.
    + by rewrite (IH Hnd Hin).
Qed.

Lemma last_assign_perm x body1 body2 :
  NoDup (assigned body1) → body1 ≡ₚ body2 →
  last_assign x body1 = last_assign x body2.
Proof.
  intros Hnd1 Hp.
  assert (Hnd2 : NoDup (assigned body2)) by (unfold assigned; by rewrite <- Hp).
  destruct (last_assign x body1) as [e|] eqn:H1.
  - apply last_assign_Some in H1. rewrite Hp in H1.
    by rewrite (last_assign_elem _ _ _ Hnd2 H1).
  - apply last_assign_None in H1. unfold assigned in H1. rewrite Hp in H1.
    symmetry. by apply last_assign_None.
Qed.


(** A static body run on its own result changes nothing. *)
Lemma exec_module_idem body g m :
  forallb static_stmt body = true →
  exec_module body g = Some m → exec_module body m = Some m.
Proof.
  intros Hs Hg.
  destruct (exec_module_static body Hs g) as (m1 & Hm1 & Hx1).
  destruct (exec_module_static body Hs m) as (m2 & Hm2 & Hx2).
  rewrite Hg in Hm1. injection Hm1 as <-. rewrite Hm2. f_equal.
  apply map_eq. intros x. rewrite Hx2, Hx1.
  by destruct (last_assign x body).
Qed.

(** Static assignments to distinct names can be run in any order. *)
Lemma exec_module_perm body1 body2 g :
  forallb static_stmt body1 = true → NoDup (assigned body1) →
  body1 ≡ₚ body2 → exec_module body2 g = exec_module body1 g.
Proof.
  intros Hs1 Hnd Hp.
  assert (Hs2 : forallb static_stmt body2 = true).
  { rewrite forallb_forall in Hs1. apply forallb_forall. intros s Hin.
    apply Hs1. by rewrite <- list_elem_of_In, Hp, list_elem_of_In. }
  destruct (exec_module_static body1 Hs1 g) as (m1 & -> & Hx1).
  destruct (exec_module_static body2 Hs2 g) as (m2 & -> & Hx2).
  f_equal. apply map_eq. intros x.
  by rewrite Hx1, Hx2, (last_assign_perm x _ _ Hnd Hp).
Qed.

(** ** Dict displays in general *)

Lemma dict_set_fresh k v d :
  k ∉ d.*1 → dict_set k v d = (d ++ [(k, v)])%list.
Proof.
  induction d as [|[k' v'] d IH]; simpl; [done|].
  rewrite not_elem_of_cons. intros [Hne Hk].
  destruct (String.eqb_spec k k'); [done|]. by rewrite IH.
Qed.

(** A display whose keys are new and distinct appends them in order. *)
Lemma eval_items_keys ev items :
  ∀ d d', NoDup (d.*1 ++ items.*1)%list → eval_items ev items d = Some d' →
          d'.*1 = (d.*1 ++ items.*1)%list.
Proof.
  induction items as [|[k e] items IH]; simpl; intros d d' Hnd H.
  - injection H as <-. by rewrite app_nil_r.
  - destruct (ev e) as [v|]; [simpl in H|done].
    assert (Hk : k ∉ d.*1).
    { apply NoDup_app in Hnd as (_ & Hd & _). intros Hin.
      apply (Hd _ Hin). left. }
    rewrite (cons_middle k), app_assoc in Hnd |- *.
    assert (Hd : (dict_set k v d).*1 = (d.*1 ++ [k])%list)
      by (by rewrite (dict_set_fresh _ _ _ Hk), fmap_app).
    rewrite <- Hd in Hnd |- *. by apply IH.
Qed.

(** Items after the key [k] that do not name it leave its entry alone. *)
Lemma eval_items_get_other ev items k :
  ∀ d d', k ∉ items.*1 → eval_items ev items d = Some d' →
          dict_get k d' = dict_get k d.
Proof.
  induction items as [|[k0 e0] items IH]; simpl; intros d d' Hk H.
  - by injection H as <-.
  - destruct (ev e0) as [v|]; [simpl in H|done].
    apply not_elem_of_cons in Hk as [Hne Hk].
    rewrite (IH _ _ Hk H). by apply dict_get_set_ne.
Qed.

(** With distinct keys, every item of the display can be read back. *)
Lemma eval_items_get ev items :
  NoDup items.*1 →
  ∀ d d', eval_items ev items d = Some d' →
  ∀ k e, (k, e) ∈ items → ∃ v, ev e = Some v ∧ dict_get k d' = Some v.
Proof.
  induction items as [|[k0 e0] items IH]; simpl; intros Hnd d d' H k e Hin.
  - by apply elem_of_nil in Hin.
  - apply NoDup_cons in Hnd as [Hk0 Hnd].
    destruct (ev e0) as [v0|] eqn:He0; [simpl in H|done].
    apply elem_of_cons in Hin as [[= -> ->]|Hin].
    + exists v0. split; [done|].
      rewrite (eval_items_get_other _ _ _ _ _ Hk0 H).
      apply dict_get_set_eq.
    + by apply (IH Hnd _ _ H).
Qed.

Lemma conf_py_NoDup : NoDup (assigned conf_py).
Proof. apply (bool_decide_unpack _). by vm_compute. Qed.

Lemma conf_py_dict_keys :
  forallb (λ s, match rhs s with
                | EDict items => bool_decide (NoDup items.*1)
                | _ => true
                end) conf_py = true.
Proof. by vm_compute. Qed.

(** ** Further properties of the module *)




(** X3: running the module again in the namespace it produced changes
    nothing. *)
Theorem conf_py_idempotent (g : namespace) :
  exec_module conf_py g ≫= exec_module conf_py = exec_module conf_py g.
Proof.
  destruct (exec_module_static conf_py conf_py_static g) as (m & Hm & _).
  rewrite Hm. change (exec_module conf_py m = Some m).
  apply (exec_module_idem _ g); [apply conf_py_static | done].
Qed.

(** X4: the order of the assignments does not matter: any rearrangement of
    the module's statements produces the same namespace. *)
Theorem conf_py_order_irrelevant (body : list stmt) (g : namespace) :
  body ≡ₚ conf_py → exec_module body g = exec_module conf_py g.
Proof.
  intros Hp. symmetry in Hp.
  by apply exec_module_perm; [apply conf_py_static | apply conf_py_NoDup |].
Qed.

(** X4 with the first two assignments, [project] and [copyright],
    exchanged. *)
Lemma conf_py_order_irrelevant_witness :
  exec_module (Assign "copyright" (EStr "2024, Nhut Nguyen") ::
               Assign "project" (EStr "Better C++") :: drop 2 conf_py) ∅ =
  exec_module conf_py ∅.
Proof.
  apply conf_py_order_irrelevant. apply perm_swap.
Defined.

(** X5: [copyright] is '2024, Nhut Nguyen', that is the year followed by
    the value of [author], and [templates_path] is ['_templates']. *)
Theorem copyright_and_templates_path (g : namespace) :
  (∃ a, setting g "author" = Some (VStr a) ∧
        setting g "copyright" = Some (VStr (String.append "2024, " a))) ∧
  setting g "templates_path" = Some (VList [VStr "_templates"]).
Proof.
  split; [exists "Nhut Nguyen"; split|]; read_setting.
Qed.

(** X6: no dict display of the module writes a key twice, so the mapping a
    name is bound to has exactly the keys of its display, in the order
    written, and each key reads back the value written for it. *)
Theorem dict_displays_keep_items (g : namespace) (x : string)
    (items : list (string * expr)) :
  Assign x (EDict items) ∈ conf_py →
  NoDup items.*1 ∧
  ∃ d, setting g x = Some (VDict d) ∧ d.*1 = items.*1 ∧
       ∀ k e, (k, e) ∈ items →
              ∃ v, eval ∅ e = Some v ∧ dict_get k d = Some v.
Proof.
  intros Hin.
  assert (Hnd : NoDup items.*1).
  { pose proof conf_py_dict_keys as Hk. rewrite forallb_forall in Hk.
    apply list_elem_of_In in Hin. apply Hk in Hin.
    by apply bool_decide_eq_true_1 in Hin. }
  split; [done|].
  rewrite setting_last_assign, (last_assign_elem _ _ _ conf_py_NoDup Hin).
  cbn [eval].
  destruct (eval_items (eval ∅) items []) as [d|] eqn:Hd.
  - exists d. split; [done|]. split.
    + by apply (eval_items_keys (eval ∅) items [] d).
    + by apply (eval_items_get (eval ∅) items Hnd [] d).
  - pose proof conf_py_static as Hs. rewrite forallb_forall in Hs.
    apply list_elem_of_In in Hin.
    apply Hs, static_constant in Hin as [v Hv].
    specialize (Hv ∅). cbn [rhs eval] in Hv. by rewrite Hd in Hv.
Qed.

(** X6 at [latex_docclass]. *)
Lemma dict_displays_keep_items_witness :
  NoDup [("book", EStr "book")].*1 ∧
  ∃ d, setting ∅ "latex_docclass" = Some (VDict d) ∧
       d.*1 = [("book", EStr "book")].*1 ∧
       ∀ k e, (k, e) ∈ [("book", EStr "book")] →
              ∃ v, eval ∅ e = Some v ∧ dict_get k d = Some v.
Proof.
  apply (dict_displays_keep_items ∅ "latex_docclass").
  unfold conf_py, latex_docclass.
  repeat first [apply list_elem_of_here | apply list_elem_of_further].
Defined.

(** X7: every enabled extension is a module of the [sphinx.ext] package,
    and no extension is listed twice. *)
Theorem extensions_builtin_distinct (g : namespace) :
  ∃ names, setting g "extensions" = Some (VList (VStr <$> names)) ∧
           NoDup names ∧
           Forall (λ s, String.prefix "sphinx.ext." s = true) names.
Proof.
  exists [ "sphinx.ext.duration"; "sphinx.ext.doctest"; "sphinx.ext.autodoc";
           "sphinx.ext.autosummary"; "sphinx.ext.intersphinx" ].
  split; [read_setting|].
  split; [apply (bool_decide_unpack _); by vm_compute | by repeat constructor].
Qed.

(** X8: [version] is [release] followed by '.0'. *)
Theorem version_extends_release (g : namespace) :
  ∃ r, setting g "release" = Some (VStr r) ∧
       setting g "version" = Some (VStr (String.append r ".0")).
Proof. exists "0.1". split; read_setting. Qed.

(** X9: every entry of [intersphinx_mapping] is a pair of a URL and the
    inventory [None], and every URL uses https and ends with a slash. *)
Theorem intersphinx_entries_https (g : namespace) :
  ∃ d, setting g "intersphinx_mapping" = Some (VDict d) ∧
       Forall (λ kv, ∃ url, kv.2 = VTuple [VStr url; VNone] ∧
                 String.prefix "https://" url = true ∧
                 String.substring (String.length url - 1) 1 url = "/") d.
Proof.
  eexists. split; [read_setting|].
  repeat (constructor; [by eexists|]). constructor.
Qed.
